(** * Football predictions: the proxy route and the prediction view

    A shallow embedding of the two source files of the application:

    - the route handler [GET] of [/api/predictions], which forwards one
      request to the upstream prediction API and answers with the parsed
      body or with a generic error payload;
    - the client component [PredictionList]: its four state cells, the
      asynchronous [fetchPredictions], the render function, and the four
      display helpers [calculateTimeRemaining], [determineOutcome],
      [formatPercentage] and [getTeamLogo].

    Conventions of the embedding.

    - A JavaScript number is modelled by the exact value it denotes.
      Probabilities are rationals ([Q]): every finite double is a dyadic
      rational, and the only operations the helpers apply to them
      (comparison, [Math.max], [===], multiplication by [1]) are exact on
      doubles.  Time values are integers ([Z], milliseconds since the
      epoch); the subtraction, division, remainder and [Math.floor] of
      [calculateTimeRemaining] are exact on integer doubles as long as the
      difference stays below 2^52 ms (about 142 000 years), which is the
      range the model describes.  The not-a-number value only arises from
      an unparsable date and is modelled by [None].
    - A JavaScript string is a sequence of UTF-16 code units.  The texts
      the helpers build are [string]s, one [ascii] per code unit below
      256 (the Latin-1 range), so that they can be written and
      evaluated as literals.  Team names can hold any code unit:
      [getTeamLogo] is modelled a second time in [Utf16], on lists of
      code units, with the case mapping of the runtime as a parameter,
      and the [string] version is its restriction to the Latin-1 range.
    - State is passed explicitly; an exception is the left summand of a
      result. *)

From Stdlib Require Import ZArith QArith Qround Bool List String Ascii.
From Stdlib Require Import DecimalString Lia Lqa.
Import ListNotations.

Set Warnings "-register-all".

Local Open Scope string_scope.
Local Open Scope Z_scope.

(** ** Runtime primitives used by the sources *)

Module JS.

(** [String(n)] for an integral number: its decimal digits, with a
    leading minus sign when negative. *)
Definition Number_toString (n : Z) : string :=
  NilZero.string_of_int (Z.to_int n).

(** [x.toFixed(0)] for a finite [x] below 10^21 in magnitude
    (ECMAScript, Number.prototype.toFixed): the sign is split off, then
    the integer [n] closest to the magnitude is printed, the larger one
    when two are equally close. *)
Definition toFixed0 (x : Q) : string :=
  let neg := negb (Qle_bool 0 x) in
  let a := if neg then Qopp x else x in
  let n := Qfloor (a + (1 # 2)) in
  (if neg then "-" else "") ++ Number_toString n.

(** [Math.max] of two, then of three numbers. *)
Definition Math_max2 (a b : Q) : Q := if Qle_bool a b then b else a.
Definition Math_max (a b c : Q) : Q := Math_max2 (Math_max2 a b) c.

(** [a === b] on numbers. *)
Definition strict_eq (a b : Q) : bool := Qeq_bool a b.

(** The characters matched by [\s] among the code units below 256:
    tab, line feed, vertical tab, form feed, carriage return, space and
    the no-break space. *)
Definition is_space (c : ascii) : bool :=
  let n := nat_of_ascii c in
  (((9 <=? n) && (n <=? 13)) || (n =? 32) || (n =? 160))%nat.

(** [s.replace(/\s+/g, r)]: scanning from the left, every maximal run of
    white space is one match and is replaced by [r].  The flag records
    that the scan is inside a run whose replacement is already out. *)
Fixpoint replace_spaces_from (in_run : bool) (r : string) (s : string)
  : string :=
  match s with
  | EmptyString => EmptyString
  | String c rest =>
      if is_space c then
        if in_run then replace_spaces_from true r rest
        else r ++ replace_spaces_from true r rest
      else String c (replace_spaces_from false r rest)
  end.

Definition replace_spaces (r s : string) : string :=
  replace_spaces_from false r s.

(** [toLowerCase] on one code unit below 256: the letters A-Z and the
    accented capitals 192-222 (without the multiplication sign 215) move
    up by 32, everything else is kept.  On a string of such code units
    the case mapping of the runtime is this map, character by
    character: its context rule (the final sigma) and its mappings to
    more than one code unit (U+0130) concern code units from 256 on,
    which a [string] cannot hold. *)
Definition lower_char (c : ascii) : ascii :=
  let n := nat_of_ascii c in
  if (((65 <=? n) && (n <=? 90))
      || ((192 <=? n) && (n <=? 222) && negb (n =? 215)))%nat
  then ascii_of_nat (n + 32) else c.

Fixpoint toLowerCase (s : string) : string :=
  match s with
  | EmptyString => EmptyString
  | String c rest => String (lower_char c) (toLowerCase rest)
  end.

End JS.

(** ** The data model *)

(** [interface Prediction]. *)
Record Prediction := mkPrediction {
  matchId : string;
  homeTeamName : string;
  awayTeamName : string;
  dateTime : string;
  homePrediction : string;
  awayPrediction : string;
  probHomeWin : Q;
  probDraw : Q;
  probAwayWin : Q;
  expectedHomeGoals : Q;
  expectedAwayGoals : Q
}.

(** ** The display helpers *)

Section Clock.

(** [new Date(s).getTime()]: the time value of a date string, [None]
    for an invalid date.  The parser belongs to the runtime. *)
Variable Date_getTime : string -> option Z.

(** [new Date().getTime()]: the clock reading of the call. *)
Variable now : Z.

Definition calculateTimeRemaining (matchTime : string) : string :=
  match Date_getTime matchTime with
  | None =>
      (* every comparison with NaN is false and both fields print NaN *)
      "NaN" ++ "m"
  | Some matchDate =>
      let timeDiff := matchDate - now in
      if timeDiff <? 0 then "Match ended"
      else
        let hours := timeDiff / (1000 * 60 * 60) in
        let minutes := (timeDiff mod (1000 * 60 * 60)) / (1000 * 60) in
        if 0 <? hours then
          JS.Number_toString hours ++ "h "
            ++ JS.Number_toString minutes ++ "m"
        else JS.Number_toString minutes ++ "m"
  end.

End Clock.

Definition determineOutcome (match_ : Prediction) : string :=
  let maxProb :=
    JS.Math_max (probHomeWin match_) (probDraw match_) (probAwayWin match_) in
  if JS.strict_eq maxProb (probHomeWin match_) then
    homeTeamName match_ ++ " likely to win"
  else if JS.strict_eq maxProb (probAwayWin match_) then
    awayTeamName match_ ++ " likely to win"
  else "Draw likely".

Definition formatPercentage (value : Q) : string :=
  JS.toFixed0 (value * 1) ++ "%".

Definition getTeamLogo (teamName : string) : string :=
  let formattedName := JS.toLowerCase (JS.replace_spaces "-" teamName) in
  "https://img.icons8.com/color/96/" ++ formattedName ++ ".png".

(** The value the progress bar of a probability receives,
    [<Progress value={p * 100} />] (exact for the literal [1]). *)
Definition progressValue (p : Q) : Q := p * 100.

(** The doubles denoted by the literals [0.42] and [1]. *)
Definition double_0_42 : Q := 7566047373982433 # 18014398509481984.
Definition double_1 : Q := 1.

(** ** The route handler of /api/predictions *)

Module Route.

(** A parsed JSON value, what [response.json()] resolves to. *)
Inductive JSON :=
| JNull
| JBool (b : bool)
| JNumber (q : Q)
| JString (s : string)
| JArray (items : list JSON)
| JObject (fields : list (string * JSON)).

Definition PREDICD_API_KEY : string :=
  "0a462628f68e4dc40cf622dfc995b7993b8c2e0f".
Definition PREDICD_API_URL : string := "https://www.predicd.com/api/v1".

Record Request := mkRequest {
  url : string;
  headers : list (string * string)
}.

(** An upstream response: its status, its body as text, and the value
    the body parses to ([None] when it is not JSON). *)
Record Response := mkResponse {
  status : Z;
  text : string;
  json : option JSON
}.

(** [response.ok]: the status is in the range 200-299. *)
Definition ok (r : Response) : bool :=
  (200 <=? status r) && (status r <=? 299).

(** How the promise of one [fetch] settles. *)
Inductive Settled :=
| Rejected
| Fulfilled (r : Response).

(** The world the handler runs in: what the upstream would answer to
    the first, second, ... request, and the requests sent so far. *)
Record World := mkWorld {
  upstream : nat -> Settled;
  sent : list Request
}.

Inductive Exn :=
| NetworkError
| Error (message : string)
| SyntaxError
| TypeError.

(** Computations that read and extend the world and may throw. *)
Definition M (A : Type) : Type := World -> (Exn + A) * World.

Definition ret {A} (a : A) : M A := fun w => (inr a, w).

Definition throw {A} (e : Exn) : M A := fun w => (inl e, w).

Definition bind {A B} (m : M A) (k : A -> M B) : M B :=
  fun w =>
    match m w with
    | (inl e, w') => (inl e, w')
    | (inr a, w') => k a w'
    end.

Notation "x <- m ;; k" := (bind m (fun x => k))
  (at level 61, m at next level, right associativity).

(** [try { m } catch (error) { h error }] with a handler that does not
    throw. *)
Definition try_catch {A} (m : M A) (h : Exn -> World -> A * World)
  : World -> A * World :=
  fun w =>
    match m w with
    | (inl e, w') => h e w'
    | (inr a, w') => (a, w')
    end.

(** [await fetch(url, { headers })]: one request goes out and the
    upstream's answer to it comes back. *)
Definition fetch (req : Request) : M Response :=
  fun w =>
    let w' := mkWorld (upstream w) (sent w ++ [req]) in
    match upstream w (List.length (sent w)) with
    | Rejected => (inl NetworkError, w')
    | Fulfilled r => (inr r, w')
    end.

(** [await response.text()] and [await response.json()]. *)
Definition response_text (r : Response) : M string := ret (text r).

Definition response_json (r : Response) : M JSON :=
  match json r with
  | Some data => ret data
  | None => throw SyntaxError
  end.

(** Reading [data.length] for the log line: a property access, which
    throws on [null]. *)
Definition read_length (data : JSON) : M unit :=
  match data with
  | JNull => throw TypeError
  | _ => ret tt
  end.

(** [NextResponse.json(body, { status })]. *)
Record NextResponse := mkNextResponse {
  nr_status : Z;
  nr_body : JSON
}.

Definition the_request : Request :=
  mkRequest (PREDICD_API_URL ++ "/matches/today/")
            [("Authorization", "Token " ++ PREDICD_API_KEY)].

Definition error_payload : JSON :=
  JObject [("error", JString "Failed to fetch predictions")].

(** [export async function GET()].  The console output is not part of
    the response and is left out, except for the property access of
    its last line. *)
Definition GET : World -> NextResponse * World :=
  try_catch
    (response <- fetch the_request ;;
     if negb (ok response) then
       errorText <- response_text response ;;
       throw (Error ("API responded with status "
                       ++ JS.Number_toString (status response)))
     else
       data <- response_json response ;;
       _ <- read_length data ;;
       ret (mkNextResponse 200 data))
    (fun error w => (mkNextResponse 500 error_payload, w)).

(** The three failures of the upstream exchange. *)
Definition upstream_failed (s : Settled) : bool :=
  match s with
  | Rejected => true
  | Fulfilled r =>
      negb (ok r) || match json r with None => true | Some _ => false end
  end.

End Route.

(** ** The prediction view *)

Module View.

(** What the body of the response of [/api/predictions] is to the
    component, by the observations the component makes of it:
    [response.json()] rejects; the value is [null], so reading its
    [error] property throws; the [error] property is truthy; or it is
    not, and the value is the [Prediction[]] the state cell is declared
    to hold.  A body that parses to anything else (an object without a
    truthy [error], a number, a string) is outside the declared type of
    the state cell and outside this model. *)
Inductive Body :=
| Malformed
| Null
| WithError (e : string)
| Items (l : list Prediction).

Record Response := mkResponse {
  ok : bool;
  status : Z;
  body : Body
}.

Inductive Settled :=
| Rejected
| Fulfilled (r : Response).

Inductive Exn :=
| NetworkError
| Error (message : string)
| SyntaxError
| TypeError.

(** The four [useState] cells; dates are time values. *)
Record State := mkState {
  predictions : list Prediction;
  isLoading : bool;
  error : option string;
  lastUpdated : option Z
}.

Definition initial : State := mkState [] true None None.

(** One call of a state setter. *)
Inductive Update :=
| SetPredictions (l : list Prediction)
| SetIsLoading (b : bool)
| SetError (e : option string)
| SetLastUpdated (d : option Z).

Definition apply (u : Update) (s : State) : State :=
  match u with
  | SetPredictions l => mkState l (isLoading s) (error s) (lastUpdated s)
  | SetIsLoading b => mkState (predictions s) b (error s) (lastUpdated s)
  | SetError e => mkState (predictions s) (isLoading s) e (lastUpdated s)
  | SetLastUpdated d => mkState (predictions s) (isLoading s) (error s) d
  end.

Definition run (us : list Update) (s : State) : State :=
  fold_left (fun s u => apply u s) us s.

(** The states the component passes through while the updates are
    applied one after the other, the last one last. *)
Fixpoint states (us : list Update) (s : State) : list State :=
  match us with
  | [] => []
  | u :: rest => apply u s :: states rest (apply u s)
  end.

(** The body of the [try] block after [setIsLoading(true)]: either an
    exception, thrown before any setter is reached, or the two setter
    calls of the success path.  [clock] is the reading of [new Date()]. *)
Definition attempt (res : Settled) (clock : Z) : Exn + list Update :=
  match res with
  | Rejected => inl NetworkError
  | Fulfilled response =>
      if negb (ok response) then
        inl (Error ("API responded with status "
                      ++ JS.Number_toString (status response)))
      else
        match body response with
        | Malformed => inl SyntaxError
        | Null => inl TypeError
        | WithError e => inl (Error e)
        | Items data =>
            inr [SetPredictions data; SetLastUpdated (Some clock)]
        end
  end.

(** [const fetchPredictions = async () => ...]: the setter calls of one
    invocation whose request settles as [res].  The first call happens
    before the [await], the others after it; applied in one piece, as
    [run] and [states] do, they describe an invocation during which no
    other invocation starts or settles.  Invocations that overlap are
    described by [Turn] below. *)
Definition fetchPredictions (res : Settled) (clock : Z) : list Update :=
  SetIsLoading true
    :: match attempt res clock with
       | inr updates => updates
       | inl err =>
           [SetError
              (Some "Failed to load predictions. Please try again later.")]
       end
    ++ [SetIsLoading false].

(** What the component returns. [ErrorView] carries the "Try Again"
    button, whose [onClick] is [fetchPredictions]; [Cards] shows the
    last-updated line when there is a date and one card per item. *)
Inductive Rendered :=
| Loading
| ErrorView (message : string)
| NoPredictions
| Cards (updated : option Z) (items : list Prediction).

Definition truthy (s : string) : bool :=
  match s with EmptyString => false | _ => true end.

(** The render part of [export default function PredictionList()]. *)
Definition PredictionList (s : State) : Rendered :=
  if isLoading s then Loading
  else
    match error s with
    | Some e =>
        if truthy e then ErrorView e
        else if (List.length (predictions s) =? 0)%nat then NoPredictions
        else Cards (lastUpdated s) (predictions s)
    | None =>
        if (List.length (predictions s) =? 0)%nat then NoPredictions
        else Cards (lastUpdated s) (predictions s)
    end.

(** The view states of the specification: loading, error, and loaded
    (a list, possibly empty). *)
Inductive Phase := PLoading | PError | PLoaded.

Definition phase (v : Rendered) : Phase :=
  match v with
  | Loading => PLoading
  | ErrorView _ => PError
  | NoPredictions | Cards _ _ => PLoaded
  end.

(** The retry control is on screen. *)
Definition retry_visible (v : Rendered) : bool :=
  match v with ErrorView _ => true | _ => false end.

(** The failures of an invocation: the promise rejects, the response is
    not a success, or its body is malformed, null or an error payload. *)
Definition failed (res : Settled) : bool :=
  match res with
  | Rejected => true
  | Fulfilled r =>
      negb (ok r)
      || match body r with Items _ => false | _ => true end
  end.

(** The states in which the component rests between two fetches, one
    fetch settling before the next starts: the effect run on mount
    fetches once, the 24-hour timer fetches from any state, and the
    button fetches when it is on screen. *)
Inductive resting : State -> Prop :=
| rest_mount res clock :
    resting (run (fetchPredictions res clock) initial)
| rest_timer s res clock :
    resting s -> resting (run (fetchPredictions res clock) s)
| rest_try_again s res clock :
    resting s -> retry_visible (PredictionList s) = true ->
    resting (run (fetchPredictions res clock) s).

End View.

(** ** The specification's wording of two helpers *)

(** The three outcomes a match can have. *)
Inductive Outcome := HomeWin | AwayWin | DrawGame.

Definition outcome_prob (m : Prediction) (o : Outcome) : Q :=
  match o with
  | HomeWin => probHomeWin m
  | AwayWin => probAwayWin m
  | DrawGame => probDraw m
  end.

Definition outcome_message (m : Prediction) (o : Outcome) : string :=
  match o with
  | HomeWin => homeTeamName m ++ " likely to win"
  | AwayWin => awayTeamName m ++ " likely to win"
  | DrawGame => "Draw likely"
  end.

(** [o] has a probability at least as large as the two others. *)
Definition is_maximal (m : Prediction) (o : Outcome) : bool :=
  Qle_bool (probHomeWin m) (outcome_prob m o)
  && Qle_bool (probDraw m) (outcome_prob m o)
  && Qle_bool (probAwayWin m) (outcome_prob m o).

(** The outcome of maximal probability, ties resolved home first, then
    away, then draw. *)
Definition spec_outcome (m : Prediction) : Outcome :=
  if is_maximal m HomeWin then HomeWin
  else if is_maximal m AwayWin then AwayWin
  else DrawGame.

(** The white space and the line terminators of ECMAScript, code point
    by code point. *)
Definition white_space_code_points : list N :=
  [9; 10; 11; 12; 13; 32; 160; 5760;
   8192; 8193; 8194; 8195; 8196; 8197; 8198; 8199; 8200; 8201; 8202;
   8232; 8233; 8239; 8287; 12288; 65279]%N.

Definition spec_white (c : N) : bool :=
  existsb (N.eqb c) white_space_code_points.

(** Replacing white space by hyphens, in two passes: every white-space
    code unit becomes a mark, and every stretch of marks is written as
    one hyphen (code unit 45). *)
Definition spec_mark (s : list N) : list (option N) :=
  map (fun c => if spec_white c then None else Some c) s.

Fixpoint spec_collapse (l : list (option N)) : list N :=
  match l with
  | [] => []
  | Some c :: rest => c :: spec_collapse rest
  | None :: rest =>
      match rest with
      | None :: _ => spec_collapse rest
      | _ => 45%N :: spec_collapse rest
      end
  end.

Definition spec_hyphenate_runs (s : list N) : list N :=
  spec_collapse (spec_mark s).

(** Every character of [s] satisfies [p]. *)
Fixpoint all_chars (p : ascii -> bool) (s : string) : bool :=
  match s with
  | EmptyString => true
  | String c rest => p c && all_chars p rest
  end.

(** [c] is left alone by [toLowerCase]. *)
Definition is_lower (c : ascii) : bool :=
  Ascii.eqb (JS.lower_char c) c.

(** ** Team names as sequences of UTF-16 code units *)

Module Utf16.

(** The characters matched by [\s], each of one code unit: the controls
    9-13, the space, the no-break space, the Ogham space mark, the
    spaces 8192-8202, the line and paragraph separators, the narrow
    no-break space, the medium mathematical space, the ideographic space
    and the byte order mark. *)
Definition is_space (c : N) : bool :=
  (((9 <=? c) && (c <=? 13)) || (c =? 32) || (c =? 160) || (c =? 5760)
   || ((8192 <=? c) && (c <=? 8202)) || (c =? 8232) || (c =? 8233)
   || (c =? 8239) || (c =? 8287) || (c =? 12288) || (c =? 65279))%N.

(** [s.replace(/\s+/g, r)], as [JS.replace_spaces] on code units. *)
Fixpoint replace_spaces_from (in_run : bool) (r s : list N) : list N :=
  match s with
  | [] => []
  | c :: rest =>
      if is_space c then
        if in_run then replace_spaces_from true r rest
        else r ++ replace_spaces_from true r rest
      else c :: replace_spaces_from false r rest
  end.

Definition replace_spaces (r s : list N) : list N :=
  replace_spaces_from false r s.

(** The code units of a text of code units below 256, such as the
    literals of the source. *)
Definition units (s : string) : list N :=
  map N_of_ascii (list_ascii_of_string s).

Section Runtime.

(** [String.prototype.toLowerCase]: the case mapping of Unicode with
    its context rules, a table of the runtime. *)
Variable toLowerCase : list N -> list N.

Definition getTeamLogo (teamName : list N) : list N :=
  let formattedName := toLowerCase (replace_spaces (units "-") teamName) in
  units "https://img.icons8.com/color/96/" ++ formattedName ++ units ".png".

End Runtime.

(** The case mapping on code units below 256, where it works unit by
    unit; this instance says nothing about the other code units. *)
Definition lower_unit (c : N) : N :=
  (if ((65 <=? c) && (c <=? 90))
      || ((192 <=? c) && (c <=? 222) && negb (c =? 215))
   then c + 32 else c)%N.

Definition toLowerCase_latin1 (s : list N) : list N := map lower_unit s.

End Utf16.

(** ** Invocations of fetchPredictions that overlap *)

(** An invocation updates the state in two turns of the event loop: it
    raises the loading flag and suspends at [await fetch(...)]; when the
    request has settled it runs to its end.  ([await response.json()]
    suspends it once more, but no setter is called between the two
    awaits.)  Nothing keeps a second invocation from starting before the
    first has settled. *)
Definition fetch_before_await : list View.Update :=
  [View.SetIsLoading true].

Definition fetch_after_await (res : View.Settled) (clock : Z)
  : list View.Update :=
  match View.attempt res clock with
  | inr updates => updates
  | inl err =>
      [View.SetError
         (Some "Failed to load predictions. Please try again later.")]
  end
  ++ [View.SetIsLoading false].

Inductive Turn :=
| Starts
| Settles (res : View.Settled) (clock : Z).

Definition turn_updates (t : Turn) : list View.Update :=
  match t with
  | Starts => fetch_before_await
  | Settles res clock => fetch_after_await res clock
  end.

(** The component after a sequence of turns, in the order in which the
    event loop ran them. *)
Definition run_turns (ts : list Turn) (s : View.State) : View.State :=
  fold_left (fun st t => View.run (turn_updates t) st) ts s.

(** ** Scenarios *)

(** An upstream that answers 503 first and would answer with data to a
    second request: the handler reports the failure after one request. *)
Definition upstream_503_then_ok : Route.World :=
  Route.mkWorld
    (fun n =>
       match n with
       | O => Route.Fulfilled
                (Route.mkResponse 503 "Service Unavailable" None)
       | S _ => Route.Fulfilled
                  (Route.mkResponse 200 "[]" (Some (Route.JArray [])))
       end)
    [].

(** One prediction as the upstream sends it, reduced to two fields. *)
Definition sample_item : Route.JSON :=
  Route.JObject
    [("matchId", Route.JString "m1"); ("probHomeWin", Route.JNumber (1 # 2))].

Definition upstream_ok : Route.World :=
  Route.mkWorld
    (fun _ => Route.Fulfilled
                (Route.mkResponse 200 "[...]"
                   (Some (Route.JArray [sample_item]))))
    [].

(** The proxy's two kinds of answer as the component receives them. *)
Definition ok_response (l : list Prediction) : View.Settled :=
  View.Fulfilled (View.mkResponse true 200 (View.Items l)).

Definition error_response : View.Settled :=
  View.Fulfilled
    (View.mkResponse false 500 (View.WithError "Failed to fetch predictions")).

Definition sample_prediction : Prediction :=
  mkPrediction "m1" "Arsenal" "Chelsea" "2023-11-14T23:43:20.000Z" "2" "1"
    (1 # 2) (1 # 4) (1 # 4) (17 # 10) (11 # 10).

(** The component after its first fetch, started on mount, has failed. *)
Definition after_failed_mount : View.State :=
  View.run (View.fetchPredictions error_response 1700000000000) View.initial.

Definition load_failure_message : string :=
  "Failed to load predictions. Please try again later.".

(** ** The card of one prediction and the two ends put together *)

Section Card.

Variable Date_getTime : string -> option Z.

(** The clock readings of the two calls of [calculateTimeRemaining]
    that one render of a card makes, in the order of the calls. *)
Variable now1 now2 : Z.

(** The line beside the clock icon:
    [calculateTimeRemaining(match.dateTime) === "Match ended"
       ? "Match ended"
       : `Time Remaining: ${calculateTimeRemaining(match.dateTime)}`]. *)
Definition timeRemainingLine (match_ : Prediction) : string :=
  if String.eqb
       (calculateTimeRemaining Date_getTime now1 (dateTime match_))
       "Match ended"
  then "Match ended"
  else "Time Remaining: "
         ++ calculateTimeRemaining Date_getTime now2 (dateTime match_).

End Card.

(** The same prediction with its three probabilities on another scale,
    percentages for [k = 100]. *)
Definition scale_probabilities (k : Q) (m : Prediction) : Prediction :=
  mkPrediction (matchId m) (homeTeamName m) (awayTeamName m) (dateTime m)
    (homePrediction m) (awayPrediction m)
    (k * probHomeWin m) (k * probDraw m) (k * probAwayWin m)
    (expectedHomeGoals m) (expectedAwayGoals m).

(** The answer of the route as the [fetch] of the component receives
    it: [ok] is read off the status, and [b] is what the component finds
    in the body. *)
Definition delivered (nr : Route.NextResponse) (b : View.Body)
  : View.Settled :=
  View.Fulfilled
    (View.mkResponse
       ((200 <=? Route.nr_status nr) && (Route.nr_status nr <=? 299))
       (Route.nr_status nr) b).

(** The component after a sequence of fetches, each settled before the
    next one starts. *)
Definition run_fetches (fs : list (View.Settled * Z)) (s : View.State)
  : View.State :=
  fold_left
    (fun st f => View.run (View.fetchPredictions (fst f) (snd f)) st) fs s.


(** ** Proof automation *)

(** Turns the boolean tests of the context into order facts. *)
Ltac order_facts :=
  repeat match goal with
    | H : Qle_bool _ _ = true |- _ => apply Qle_bool_iff in H
    | H : Qle_bool ?a ?b = false |- _ =>
        assert (b < a)%Q
          by (apply Qnot_le_lt; intros C; apply Qle_bool_iff in C; congruence);
        clear H
    | H : Qeq_bool _ _ = true |- _ => apply Qeq_bool_iff in H
    | H : Qeq_bool ?a ?b = false |- _ =>
        assert (~ (a == b)%Q)
          by (intros C; apply Qeq_bool_iff in C; congruence);
        clear H
    end.

(** * Properties *)

(** ** Strings *)

Lemma append_assoc (a b c : string) : (a ++ b) ++ c = a ++ (b ++ c).
Proof.
  induction a as [|x a IH]; simpl; [reflexivity|].
  now rewrite IH.
Qed.

Lemma append_last_char (s t : string) (c d : ascii) :
  s ++ String c "" = t ++ String d "" -> c = d.
Proof.
  revert t; induction s as [|x s IH]; intros [|y t] H; simpl in H.
  - now inversion H.
  - inversion H as [[Hx Ht]]. destruct t; discriminate.
  - inversion H as [[Hx Hs]]. destruct s; discriminate.
  - inversion H as [[Hx Hs]]. now apply IH with t.
Qed.

Lemma minutes_suffix_not_ended (s : string) : s ++ "m" <> "Match ended".
Proof.
  intros H.
  change "Match ended" with ("Match ende" ++ "d") in H.
  apply append_last_char in H. discriminate.
Qed.

(** ** formatPercentage *)

(** C1. The specification asks for the unit fraction scaled by 100 and
    printed without decimals: "42%" for 0.42 and "100%" for 1.  The
    function multiplies by 1 before rounding, so the two literals print
    as "0%" and "1%", while the progress bar next to the text does scale
    the same field by 100. *)
Theorem formatPercentage_multiplies_by_one :
  formatPercentage double_0_42 = "0%"
  /\ formatPercentage double_1 = "1%"
  /\ formatPercentage double_0_42 <> "42%"
  /\ formatPercentage double_1 <> "100%"
  /\ (progressValue double_1 == 100)%Q.
Proof.
  repeat split; try reflexivity; vm_compute; discriminate.
Qed.

(** The integer closest to a number of the interval [[0, 3/2)]. *)
Lemma Qfloor_between (x : Q) (k : Z) :
  (inject_Z k <= x)%Q -> (x < inject_Z (k + 1))%Q -> Qfloor x = k.
Proof.
  intros Hl Hu.
  pose proof (Qfloor_le x) as Fl. pose proof (Qlt_floor x) as Fu.
  assert (A : (inject_Z (Qfloor x) < inject_Z (k + 1))%Q)
    by (eapply Qle_lt_trans; eassumption).
  assert (B : (inject_Z k < inject_Z (Qfloor x + 1))%Q)
    by (eapply Qle_lt_trans; eassumption).
  rewrite <- Zlt_Qlt in A, B. lia.
Qed.

(** On the whole unit interval only two texts are ever shown. *)
Lemma formatPercentage_unit_interval (v : Q) :
  (0 <= v)%Q -> (v <= 1)%Q ->
  formatPercentage v = (if Qle_bool (1 # 2) v then "1%" else "0%").
Proof.
  intros H0 H1. unfold formatPercentage, JS.toFixed0.
  assert (Hv : (0 <= v * 1)%Q) by lra.
  apply Qle_bool_iff in Hv. rewrite Hv. simpl negb. cbv iota.
  destruct (Qle_bool (1 # 2) v) eqn:E.
  - order_facts.
    rewrite (Qfloor_between _ 1); [reflexivity| |];
      unfold inject_Z; simpl Z.add; lra.
  - order_facts.
    rewrite (Qfloor_between _ 0); [reflexivity| |];
      unfold inject_Z; simpl Z.add; lra.
Qed.

(** ** determineOutcome *)

(** [Math.max] returns an upper bound that is one of its arguments. *)
Lemma Math_max_upper (a b c : Q) :
  (a <= JS.Math_max a b c /\ b <= JS.Math_max a b c
   /\ c <= JS.Math_max a b c)%Q.
Proof.
  unfold JS.Math_max, JS.Math_max2.
  destruct (Qle_bool a b) eqn:E1;
    [destruct (Qle_bool b c) eqn:E2 | destruct (Qle_bool a c) eqn:E2];
    order_facts; repeat split; lra.
Qed.

Lemma Math_max_attained (a b c : Q) :
  JS.Math_max a b c = a \/ JS.Math_max a b c = b \/ JS.Math_max a b c = c.
Proof.
  unfold JS.Math_max, JS.Math_max2.
  destruct (Qle_bool a b);
    [destruct (Qle_bool b c) | destruct (Qle_bool a c)]; auto.
Qed.

(** C3. For every prediction, [determineOutcome] returns the message of
    the outcome of maximal probability, and among tied maxima it prefers
    the home win, then the away win, then the draw. *)
Theorem determineOutcome_argmax (m : Prediction) :
  determineOutcome m = outcome_message m (spec_outcome m)
  /\ is_maximal m (spec_outcome m) = true
  /\ (outcome_prob m (spec_outcome m)
      == JS.Math_max (probHomeWin m) (probDraw m) (probAwayWin m))%Q.
Proof.
  unfold determineOutcome, spec_outcome, is_maximal, JS.strict_eq.
  destruct m as [i hn an dt hp ap h d a eh ea]; simpl.
  pose proof (Math_max_upper h d a) as (Uh & Ud & Ua).
  destruct (Math_max_attained h d a) as [A | [A | A]];
    rewrite A in *; clear A;
    repeat match goal with
      | |- context [Qle_bool ?x ?y] =>
          is_var x; is_var y; destruct (Qle_bool x y) eqn:?; simpl
      | |- context [Qeq_bool ?x ?y] =>
          is_var x; is_var y; destruct (Qeq_bool x y) eqn:?; simpl
      end;
    order_facts;
    try (exfalso; lra);
    repeat split; try reflexivity; try lra.
Qed.

(** Ties: home before away before draw. *)
Example determineOutcome_all_tied :
  determineOutcome
    (mkPrediction "m" "Arsenal" "Chelsea" "" "1" "1"
       (1 # 3) (1 # 3) (1 # 3) 1 1)
  = "Arsenal likely to win".
Proof. reflexivity. Qed.

Example determineOutcome_away_draw_tied :
  determineOutcome
    (mkPrediction "m" "Arsenal" "Chelsea" "" "1" "1"
       (1 # 5) (2 # 5) (2 # 5) 1 1)
  = "Chelsea likely to win".
Proof. reflexivity. Qed.

Example determineOutcome_draw :
  determineOutcome
    (mkPrediction "m" "Arsenal" "Chelsea" "" "1" "1"
       (3 # 10) (2 # 5) (3 # 10) 1 1)
  = "Draw likely".
Proof. reflexivity. Qed.

(** ** calculateTimeRemaining *)

Lemma hours_minutes_split (d : Z) :
  0 <= d ->
  let h := d / (1000 * 60 * 60) in
  let mi := (d mod (1000 * 60 * 60)) / (1000 * 60) in
  0 <= h /\ 0 <= mi < 60
  /\ h * 3600000 + mi * 60000 <= d < h * 3600000 + (mi + 1) * 60000.
Proof.
  intros Hd h mi. subst h mi.
  change (1000 * 60 * 60) with 3600000. change (1000 * 60) with 60000.
  pose proof (Z.div_mod d 3600000 ltac:(lia)) as E.
  pose proof (Z.mod_pos_bound d 3600000 ltac:(lia)) as B.
  set (r := d mod 3600000) in *. set (h := d / 3600000) in *.
  pose proof (Z.div_mod r 60000 ltac:(lia)) as E'.
  pose proof (Z.mod_pos_bound r 60000 ltac:(lia)) as B'.
  set (mi := r / 60000) in *.
  assert (0 <= h) by (subst h; apply Z.div_pos; lia).
  lia.
Qed.

(** C4. For a kickoff that parses to a time value, the text is "Match
    ended" exactly when kickoff minus now is negative; otherwise it shows
    the whole hours and the remaining whole minutes of the difference,
    without the hours part when there are none.  Ninety minutes ahead
    read "1h 30m" and forty-five minutes ahead "45m". *)
Theorem calculateTimeRemaining_spec
    (Date_getTime : string -> option Z) (now : Z)
    (matchTime : string) (kickoff : Z) :
  Date_getTime matchTime = Some kickoff ->
  let shown := calculateTimeRemaining Date_getTime now matchTime in
  let diff := kickoff - now in
  (shown = "Match ended" <-> diff < 0)
  /\ (0 <= diff ->
      exists h mi,
        0 <= h /\ 0 <= mi < 60
        /\ h * 3600000 + mi * 60000 <= diff < h * 3600000 + (mi + 1) * 60000
        /\ shown = (if h =? 0 then JS.Number_toString mi ++ "m"
                    else JS.Number_toString h ++ "h "
                           ++ JS.Number_toString mi ++ "m"))
  /\ (diff = 90 * 60 * 1000 -> shown = "1h 30m")
  /\ (diff = 45 * 60 * 1000 -> shown = "45m").
Proof.
  intros P shown diff. subst shown. unfold calculateTimeRemaining.
  rewrite P. fold diff. cbv zeta.
  repeat split.
  - destruct (diff <? 0) eqn:E; [intros _; lia|].
    intros H. exfalso.
    destruct (0 <? diff / (1000 * 60 * 60)).
    + rewrite <- append_assoc, <- append_assoc in H.
      exact (minutes_suffix_not_ended _ H).
    + exact (minutes_suffix_not_ended _ H).
  - intros H. apply Z.ltb_lt in H. now rewrite H.
  - intros H.
    destruct (hours_minutes_split diff H) as (Hh & Hm & Hd).
    exists (diff / (1000 * 60 * 60)),
      ((diff mod (1000 * 60 * 60)) / (1000 * 60)).
    repeat split; try lia.
    assert (E : (diff <? 0) = false) by lia. rewrite E.
    destruct (0 <? diff / (1000 * 60 * 60)) eqn:E1;
      destruct (diff / (1000 * 60 * 60) =? 0) eqn:E2; try reflexivity; lia.
  - intros H. rewrite H. reflexivity.
  - intros H. rewrite H. reflexivity.
Qed.

Lemma calculateTimeRemaining_spec_witness :
  calculateTimeRemaining (fun _ => Some 1700005400000) 1700000000000
    "2023-11-14T23:43:20.000Z" = "1h 30m".
Proof.
  destruct (calculateTimeRemaining_spec
              (fun _ => Some 1700005400000) 1700000000000
              "2023-11-14T23:43:20.000Z" 1700005400000 eq_refl)
    as (_ & _ & H & _).
  apply H. reflexivity.
Defined.

(** An unparsable date is not reported as ended. *)
Lemma calculateTimeRemaining_invalid_date
    (Date_getTime : string -> option Z) (now : Z) (matchTime : string) :
  Date_getTime matchTime = None ->
  calculateTimeRemaining Date_getTime now matchTime = "NaNm".
Proof. intros P. unfold calculateTimeRemaining. now rewrite P. Qed.

(** ** getTeamLogo *)

(** The range tests of [\s] pick exactly the code points of the table. *)
Lemma is_space_spec_white (c : N) : Utf16.is_space c = spec_white c.
Proof.
  apply eq_true_iff_eq.
  unfold Utf16.is_space, spec_white, white_space_code_points.
  simpl existsb.
  rewrite !orb_true_iff, !andb_true_iff, !N.leb_le, !N.eqb_eq.
  split; intros H; repeat destruct H as [H | H]; try discriminate; lia.
Qed.

Lemma spec_collapse_mark_head (l : list (option N)) :
  exists t, spec_collapse (None :: l) = (45%N :: t).
Proof.
  induction l as [|[c|] l IH].
  - now exists [].
  - now exists (c :: spec_collapse l).
  - exact IH.
Qed.

(** The scan of the regular expression against the two passes: outside
    a run they agree, and inside a run the scan has the hyphen of the
    run behind it. *)
Lemma replace_spaces_from_collapse (s : list N) :
  Utf16.replace_spaces_from false [45%N] s = spec_hyphenate_runs s
  /\ Utf16.replace_spaces_from true [45%N] s
     = match s with
       | [] => []
       | c :: _ =>
           if spec_white c then tl (spec_hyphenate_runs s)
           else spec_hyphenate_runs s
       end.
Proof.
  unfold spec_hyphenate_runs.
  induction s as [|c r [IH1 IH2]]; [split; reflexivity|].
  cbn [Utf16.replace_spaces_from spec_mark map].
  rewrite is_space_spec_white.
  destruct (spec_white c) eqn:W.
  - destruct r as [|d r'].
    + split; reflexivity.
    + revert IH1 IH2. cbn [spec_mark map].
      set (m := map (fun c => if spec_white c then None else Some c) r').
      destruct (spec_white d) eqn:D; intros IH1 IH2.
      * destruct (spec_collapse_mark_head m) as (t & E).
        change (spec_collapse (None :: None :: m))
          with (spec_collapse (None :: m)).
        rewrite IH2, E. split; reflexivity.
      * change (spec_collapse (None :: Some d :: m))
          with (45%N :: spec_collapse (Some d :: m)).
        rewrite IH2. split; reflexivity.
  - cbn [spec_collapse]. rewrite IH1. split; reflexivity.
Qed.

Lemma spec_hyphenate_runs_no_white (s : list N) :
  Forall (fun c => spec_white c = false) (spec_hyphenate_runs s).
Proof.
  unfold spec_hyphenate_runs.
  induction s as [|c r IH]; [constructor|].
  cbn [spec_mark map]. destruct (spec_white c) eqn:W.
  - cbn [spec_collapse]. fold (spec_mark r).
    destruct (spec_mark r) as [|[d|] m]; try exact IH;
      constructor; (reflexivity || exact IH).
  - cbn [spec_collapse]. constructor; assumption.
Qed.

Lemma spec_hyphenate_runs_length (s : list N) :
  (List.length (spec_hyphenate_runs s) <= List.length s)%nat.
Proof.
  unfold spec_hyphenate_runs.
  induction s as [|c r IH]; [apply Nat.le_refl|].
  cbn [spec_mark map]. destruct (spec_white c).
  - cbn [spec_collapse]. fold (spec_mark r).
    destruct (spec_mark r) as [|[d|] m]; cbn [List.length] in *; lia.
  - cbn [spec_collapse List.length]. fold (spec_mark r). lia.
Qed.

(** C9. For every team name, a sequence of UTF-16 code units, and
    whatever the case mapping of the runtime, [getTeamLogo] returns the
    icon-service prefix, the formatted name and the [.png] suffix, and
    rejects no input.  The formatted name is the lower-cased form of the
    name in which white space has been replaced by hyphens, one hyphen
    for each stretch of white space; the hyphenated name holds no white
    space and is not longer than the name. *)
Theorem getTeamLogo_utf16_spec (toLowerCase : list N -> list N)
    (teamName : list N) :
  let hyphenated := Utf16.replace_spaces (Utf16.units "-") teamName in
  Utf16.getTeamLogo toLowerCase teamName
  = (Utf16.units "https://img.icons8.com/color/96/"
       ++ toLowerCase (spec_hyphenate_runs teamName)
       ++ Utf16.units ".png")%list
  /\ hyphenated = spec_hyphenate_runs teamName
  /\ Forall (fun c => ~ In c white_space_code_points) hyphenated
  /\ (List.length hyphenated <= List.length teamName)%nat.
Proof.
  cbv zeta. unfold Utf16.getTeamLogo, Utf16.replace_spaces.
  change (Utf16.units "-") with [45%N].
  destruct (replace_spaces_from_collapse teamName) as [E _].
  rewrite E. repeat split.
  - eapply Forall_impl; [|apply spec_hyphenate_runs_no_white].
    intros c W I. unfold spec_white in W.
    assert (X : existsb (N.eqb c) white_space_code_points = true).
    { apply existsb_exists. exists c. split; [exact I | apply N.eqb_refl]. }
    congruence.
  - apply spec_hyphenate_runs_length.
Qed.

(** The [string] version of [getTeamLogo] is the version on code units
    for names in the Latin-1 range, with the case mapping of that
    range. *)
Lemma lower_char_unit (c : ascii) :
  N_of_ascii (JS.lower_char c) = Utf16.lower_unit (N_of_ascii c).
Proof. destruct c as [[] [] [] [] [] [] [] []]; reflexivity. Qed.

Lemma is_space_unit (c : ascii) :
  JS.is_space c = Utf16.is_space (N_of_ascii c).
Proof. destruct c as [[] [] [] [] [] [] [] []]; reflexivity. Qed.

Lemma units_append (a b : string) :
  Utf16.units (a ++ b) = (Utf16.units a ++ Utf16.units b)%list.
Proof.
  unfold Utf16.units.
  induction a as [|c a IH]; simpl; [reflexivity | now rewrite IH].
Qed.

Lemma units_toLowerCase (s : string) :
  Utf16.units (JS.toLowerCase s)
  = Utf16.toLowerCase_latin1 (Utf16.units s).
Proof.
  unfold Utf16.units, Utf16.toLowerCase_latin1.
  induction s as [|c s IH]; simpl; [reflexivity|].
  now rewrite lower_char_unit, IH.
Qed.

Lemma units_replace_spaces_from (in_run : bool) (s : string) :
  Utf16.units (JS.replace_spaces_from in_run "-" s)
  = Utf16.replace_spaces_from in_run [45%N] (Utf16.units s).
Proof.
  revert in_run. induction s as [|c s IH]; intros in_run; [reflexivity|].
  change (Utf16.units (String c s)) with (N_of_ascii c :: Utf16.units s).
  cbn [JS.replace_spaces_from Utf16.replace_spaces_from].
  rewrite <- is_space_unit.
  destruct (JS.is_space c); [destruct in_run|].
  - apply IH.
  - rewrite units_append, IH. reflexivity.
  - change (Utf16.units (String c ?x)) with (N_of_ascii c :: Utf16.units x).
    unfold Utf16.units at 1. simpl. fold (Utf16.units
      (JS.replace_spaces_from false "-" s)). now rewrite IH.
Qed.

Lemma getTeamLogo_units (teamName : string) :
  Utf16.units (getTeamLogo teamName)
  = Utf16.getTeamLogo Utf16.toLowerCase_latin1 (Utf16.units teamName).
Proof.
  unfold getTeamLogo, Utf16.getTeamLogo, JS.replace_spaces,
    Utf16.replace_spaces.
  rewrite !units_append, units_toLowerCase, units_replace_spaces_from.
  reflexivity.
Qed.

(** The capitals of the Latin-1 range and their small letters, as
    tables. *)
Example toLowerCase_alphabet :
  JS.toLowerCase "ABCDEFGHIJKLMNOPQRSTUVWXYZ [\]^_`0189@-"
  = "abcdefghijklmnopqrstuvwxyz [\]^_`0189@-".
Proof. reflexivity. Qed.

Example lower_unit_accented :
  map Utf16.lower_unit [192; 201; 214; 215; 216; 222; 223; 255]%N
  = [224; 233; 246; 215; 248; 254; 223; 255]%N.
Proof. reflexivity. Qed.

(** An ideographic space between two ideographs becomes a hyphen, and
    so does a stretch of a space, a tab and a no-break space. *)
Example replace_spaces_ideographic :
  Utf16.replace_spaces [45%N] [26481; 12288; 20140]%N
  = [26481; 45; 20140]%N
  /\ Utf16.replace_spaces [45%N] [65; 32; 9; 160; 66]%N = [65; 45; 66]%N.
Proof. split; reflexivity. Qed.

Example getTeamLogo_utf16_manchester_united :
  Utf16.getTeamLogo Utf16.toLowerCase_latin1
    (Utf16.units "Manchester United")
  = Utf16.units "https://img.icons8.com/color/96/manchester-united.png".
Proof. reflexivity. Qed.

Example getTeamLogo_manchester_united :
  getTeamLogo "Manchester United"
  = "https://img.icons8.com/color/96/manchester-united.png".
Proof. reflexivity. Qed.

(** A run of several blanks gives one hyphen, and nothing is trimmed. *)
Example getTeamLogo_run_of_blanks :
  getTeamLogo " Real   Madrid"
  = "https://img.icons8.com/color/96/-real-madrid.png".
Proof. reflexivity. Qed.

Example getTeamLogo_empty_name :
  getTeamLogo "" = "https://img.icons8.com/color/96/.png".
Proof. reflexivity. Qed.

(** ** The route handler *)

(** The handler sends exactly one request, whatever comes back. *)
Lemma GET_sends_one_request (w : Route.World) :
  snd (Route.GET w)
  = Route.mkWorld (Route.upstream w) (Route.sent w ++ [Route.the_request]).
Proof.
  unfold Route.GET, Route.try_catch, Route.bind, Route.fetch.
  destruct (Route.upstream w (List.length (Route.sent w))) as [|r];
    [reflexivity|].
  destruct (negb (Route.ok r)); [reflexivity|].
  unfold Route.response_json.
  destruct (Route.json r) as [[]|]; reflexivity.
Qed.

(** C5. Whenever the upstream exchange fails, by a rejected request, a
    status outside 200-299 or a body that is not JSON, the handler
    answers with status 500 and the payload whose [error] field is the
    fixed message; the one request it sent is the only one, so nothing
    is retried, and no part of the upstream answer is in the response. *)
Theorem GET_failure (w : Route.World) :
  Route.upstream_failed (Route.upstream w (List.length (Route.sent w)))
  = true ->
  Route.GET w
  = (Route.mkNextResponse 500
       (Route.JObject
          [("error", Route.JString "Failed to fetch predictions")]),
     Route.mkWorld (Route.upstream w) (Route.sent w ++ [Route.the_request])).
Proof.
  intros F.
  unfold Route.GET, Route.try_catch, Route.bind, Route.fetch.
  destruct (Route.upstream w (List.length (Route.sent w))) as [|r];
    [reflexivity|].
  simpl in F.
  destruct (negb (Route.ok r)); [reflexivity|].
  unfold Route.response_json.
  destruct (Route.json r); [discriminate|reflexivity].
Qed.

Lemma GET_failure_witness :
  Route.nr_status (fst (Route.GET upstream_503_then_ok)) = 500
  /\ List.length (Route.sent (snd (Route.GET upstream_503_then_ok))) = 1%nat.
Proof.
  rewrite (GET_failure upstream_503_then_ok eq_refl). split; reflexivity.
Defined.

(** C6. When the upstream answers with a success status and a body that
    parses to a JSON array, the handler answers with status 200 and that
    very array. *)
Theorem GET_success (w : Route.World) (r : Route.Response)
    (items : list Route.JSON) :
  Route.upstream w (List.length (Route.sent w)) = Route.Fulfilled r ->
  Route.ok r = true ->
  Route.json r = Some (Route.JArray items) ->
  Route.GET w
  = (Route.mkNextResponse 200 (Route.JArray items),
     Route.mkWorld (Route.upstream w) (Route.sent w ++ [Route.the_request])).
Proof.
  intros U O J.
  unfold Route.GET, Route.try_catch, Route.bind, Route.fetch.
  rewrite U, O. simpl. unfold Route.response_json. rewrite J. reflexivity.
Qed.

Lemma GET_success_witness :
  fst (Route.GET upstream_ok)
  = Route.mkNextResponse 200 (Route.JArray [sample_item]).
Proof.
  rewrite (GET_success upstream_ok _ [sample_item] eq_refl eq_refl eq_refl).
  reflexivity.
Defined.

(** A success status with the body [null] is answered with the error
    payload as well: the log line reads a property of the parsed value. *)
Lemma GET_null_body (w : Route.World) (r : Route.Response) :
  Route.upstream w (List.length (Route.sent w)) = Route.Fulfilled r ->
  Route.ok r = true ->
  Route.json r = Some Route.JNull ->
  fst (Route.GET w) = Route.mkNextResponse 500 Route.error_payload.
Proof.
  intros U O J.
  unfold Route.GET, Route.try_catch, Route.bind, Route.fetch.
  rewrite U, O. simpl. unfold Route.response_json. rewrite J. reflexivity.
Qed.

(** ** The prediction view *)

Lemma failed_attempt_throws (res : View.Settled) (clock : Z) :
  View.failed res = true -> exists err, View.attempt res clock = inl err.
Proof.
  destruct res as [|r]; simpl; [eauto|].
  destruct (View.ok r); simpl; [|eauto].
  destruct (View.body r); simpl; eauto. discriminate.
Qed.

Lemma successful_attempt (r : View.Response) (l : list Prediction)
    (clock : Z) :
  View.ok r = true -> View.body r = View.Items l ->
  View.fetchPredictions (View.Fulfilled r) clock
  = [View.SetIsLoading true; View.SetPredictions l;
     View.SetLastUpdated (Some clock); View.SetIsLoading false].
Proof.
  intros O B. unfold View.fetchPredictions, View.attempt.
  now rewrite O, B.
Qed.

(** No invocation ever touches the error cell except to set the message:
    once a message is recorded it stays. *)
Lemma fetchPredictions_keeps_error (s : View.State) (res : View.Settled)
    (clock : Z) (e : string) :
  View.error s = Some e -> View.truthy e = true ->
  exists e',
    View.error (View.run (View.fetchPredictions res clock) s) = Some e'
    /\ View.truthy e' = true.
Proof.
  intros E T. unfold View.fetchPredictions.
  destruct (View.attempt res clock) as [err|us] eqn:A.
  - exists load_failure_message. split; reflexivity.
  - exists e. split; [|exact T].
    unfold View.attempt in A.
    destruct res as [|r]; [discriminate|].
    destruct (negb (View.ok r)); [discriminate|].
    destruct (View.body r); try discriminate.
    inversion A; subst. simpl. exact E.
Qed.

(** From the error view every fetch, successful or not, ends in the
    error view again. *)
Lemma error_view_is_permanent (s : View.State) (res : View.Settled)
    (clock : Z) :
  View.phase (View.PredictionList s) = View.PError ->
  View.phase
    (View.PredictionList (View.run (View.fetchPredictions res clock) s))
  = View.PError.
Proof.
  intros H.
  assert (exists e, View.error s = Some e /\ View.truthy e = true)
    as (e & E & T).
  { unfold View.PredictionList in H.
    destruct (View.isLoading s); [discriminate|].
    destruct (View.error s) as [e|].
    - exists e. split; [reflexivity|].
      destruct (View.truthy e); [reflexivity|].
      destruct (List.length (View.predictions s) =? 0)%nat; discriminate.
    - destruct (List.length (View.predictions s) =? 0)%nat; discriminate. }
  destruct (fetchPredictions_keeps_error s res clock e E T) as (e' & E' & T').
  assert (L : View.isLoading (View.run (View.fetchPredictions res clock) s)
              = false).
  { unfold View.fetchPredictions, View.run.
    rewrite app_comm_cons, fold_left_app. reflexivity. }
  unfold View.PredictionList. now rewrite L, E', T'.
Qed.

Lemma after_failed_mount_resting : View.resting after_failed_mount.
Proof. apply View.rest_mount. Qed.

(** C2. The first fetch after mount fails and the error view with its
    button is shown.  The click on "Try Again" shows the loading view
    again, and its request succeeds with one prediction: the list and the
    date are stored, yet the component ends in the error view, not in
    the loaded one, because no path resets the error cell. *)
Theorem retry_success_still_shows_error :
  let retry :=
    View.fetchPredictions (ok_response [sample_prediction]) 1700000060000 in
  View.PredictionList after_failed_mount = View.ErrorView load_failure_message
  /\ View.retry_visible (View.PredictionList after_failed_mount) = true
  /\ map View.PredictionList (View.states retry after_failed_mount)
     = [View.Loading; View.Loading; View.Loading;
        View.ErrorView load_failure_message]
  /\ View.PredictionList (View.run retry after_failed_mount)
     = View.ErrorView load_failure_message
  /\ View.predictions (View.run retry after_failed_mount)
     = [sample_prediction]
  /\ View.lastUpdated (View.run retry after_failed_mount)
     = Some 1700000060000.
Proof. repeat split. Qed.

(** The part of the retry that does hold: the loading view comes back
    at once and the fetch ends in the error or in the loaded view. *)
Lemma retry_reenters_loading (s : View.State) (res : View.Settled)
    (clock : Z) :
  exists rest,
    View.fetchPredictions res clock = View.SetIsLoading true :: rest
    /\ View.PredictionList (View.apply (View.SetIsLoading true) s)
       = View.Loading
    /\ View.phase
         (View.PredictionList (View.run (View.fetchPredictions res clock) s))
       <> View.PLoading.
Proof.
  eexists. split; [reflexivity|]. split; [reflexivity|].
  assert (L : View.isLoading (View.run (View.fetchPredictions res clock) s)
              = false).
  { unfold View.fetchPredictions, View.run.
    rewrite app_comm_cons, fold_left_app. reflexivity. }
  unfold View.PredictionList. rewrite L.
  destruct (View.error _) as [e|]; [destruct (View.truthy e)|];
    try destruct (_ =? _)%nat; discriminate.
Qed.

(** C7. The first fetch after mount fails; the next fetch succeeds with
    an empty array.  The empty list and the date are stored, but the
    component shows the error view, not the "no predictions" view: the
    message recorded by the failed fetch is still in the error cell. *)
Theorem empty_success_after_failure_shows_error :
  let refetch := View.fetchPredictions (ok_response []) 1700000060000 in
  View.resting after_failed_mount
  /\ View.predictions (View.run refetch after_failed_mount) = []
  /\ View.PredictionList (View.run refetch after_failed_mount)
     = View.ErrorView load_failure_message
  /\ View.PredictionList (View.run refetch after_failed_mount)
     <> View.NoPredictions.
Proof.
  repeat split; [apply after_failed_mount_resting | discriminate].
Qed.

(** As long as no fetch has failed, an empty array is shown as the "no
    predictions" view. *)
Lemma empty_success_without_error (s : View.State) (r : View.Response)
    (clock : Z) :
  View.error s = None ->
  View.ok r = true -> View.body r = View.Items [] ->
  View.PredictionList
    (View.run (View.fetchPredictions (View.Fulfilled r) clock) s)
  = View.NoPredictions.
Proof.
  intros E O B. rewrite (successful_attempt r [] clock O B).
  unfold View.PredictionList. simpl. now rewrite E.
Qed.

Example empty_success_on_mount :
  View.PredictionList
    (View.run (View.fetchPredictions (ok_response []) 1700000000000)
       View.initial)
  = View.NoPredictions.
Proof. reflexivity. Qed.

(** As long as no fetch has failed, a refetch behaves as intended: let
    a fetch succeed and leave the component in the loaded view; a
    further fetch that succeeds shows the loading view until its last
    update and then the loaded view again, with the new list and with
    the date of the new fetch in place of the earlier one. *)
Theorem refetch_after_success (s : View.State)
    (r1 r2 : View.Response) (l1 l2 : list Prediction) (t1 t2 : Z) :
  View.ok r1 = true -> View.body r1 = View.Items l1 ->
  View.ok r2 = true -> View.body r2 = View.Items l2 ->
  let s1 := View.run (View.fetchPredictions (View.Fulfilled r1) t1) s in
  View.phase (View.PredictionList s1) = View.PLoaded ->
  let refetch := View.fetchPredictions (View.Fulfilled r2) t2 in
  map (fun st => View.phase (View.PredictionList st))
      (View.states refetch s1)
  = [View.PLoading; View.PLoading; View.PLoading; View.PLoaded]
  /\ View.lastUpdated s1 = Some t1
  /\ View.lastUpdated (View.run refetch s1) = Some t2
  /\ View.predictions (View.run refetch s1) = l2.
Proof.
  intros O1 B1 O2 B2 s1 L refetch. subst s1 refetch.
  rewrite (successful_attempt r1 l1 t1 O1 B1) in *.
  rewrite (successful_attempt r2 l2 t2 O2 B2).
  simpl in *. repeat split.
  unfold View.PredictionList in *. simpl in *.
  destruct (View.error s) as [e|]; [destruct (View.truthy e)|];
    try discriminate;
    destruct l2; reflexivity.
Qed.

Lemma refetch_after_success_witness :
  View.lastUpdated
    (View.run
       (View.fetchPredictions (ok_response [sample_prediction]) 1700086400000)
       (View.run (View.fetchPredictions (ok_response []) 1700000000000)
          View.initial))
  = Some 1700086400000.
Proof.
  exact (proj1 (proj2 (proj2
    (refetch_after_success View.initial
       (View.mkResponse true 200 (View.Items []))
       (View.mkResponse true 200 (View.Items [sample_prediction]))
       [] [sample_prediction] 1700000000000 1700086400000
       eq_refl eq_refl eq_refl eq_refl eq_refl)))).
Defined.

(** C8. The first fetch after mount fails, and the click on "Try
    Again" fetches with success.  The button is still on screen, and the
    user retries once more, again with success: the component shows the
    loading view and then the error view, not the loaded one, although
    the date of the new fetch has replaced the earlier one.  No path
    resets the error cell. *)
Theorem forced_retry_after_success_shows_error :
  let after_success :=
    View.run
      (View.fetchPredictions (ok_response [sample_prediction])
         1700000060000)
      after_failed_mount in
  let retry :=
    View.fetchPredictions (ok_response [sample_prediction]) 1700000120000 in
  View.predictions after_success = [sample_prediction]
  /\ View.lastUpdated after_success = Some 1700000060000
  /\ View.retry_visible (View.PredictionList after_success) = true
  /\ map View.PredictionList (View.states retry after_success)
     = [View.Loading; View.Loading; View.Loading;
        View.ErrorView load_failure_message]
  /\ View.phase (View.PredictionList (View.run retry after_success))
     = View.PError
  /\ View.lastUpdated (View.run retry after_success) = Some 1700000120000.
Proof. repeat split. Qed.

(** C10. An invocation that fails, by a rejected request, a response
    that is not a success, or a body that is malformed, null or an error
    payload, calls only [setIsLoading] and [setError]: the list and the
    date are the same in every state it passes through and at its end,
    where the message is recorded and the loading flag is down. *)
Theorem failed_fetch_preserves_data (s : View.State) (res : View.Settled)
    (clock : Z) :
  View.failed res = true ->
  let updates := View.fetchPredictions res clock in
  updates
  = [View.SetIsLoading true; View.SetError (Some load_failure_message);
     View.SetIsLoading false]
  /\ Forall
       (fun st => View.predictions st = View.predictions s
                  /\ View.lastUpdated st = View.lastUpdated s)
       (View.states updates s)
  /\ View.predictions (View.run updates s) = View.predictions s
  /\ View.lastUpdated (View.run updates s) = View.lastUpdated s
  /\ View.error (View.run updates s) = Some load_failure_message
  /\ View.isLoading (View.run updates s) = false.
Proof.
  intros F updates. subst updates.
  destruct (failed_attempt_throws res clock F) as (err & A).
  unfold View.fetchPredictions. rewrite A. simpl.
  repeat split; repeat constructor.
Qed.

Lemma failed_fetch_preserves_data_witness :
  View.predictions
    (View.run (View.fetchPredictions error_response 1700086400000)
       (View.run
          (View.fetchPredictions (ok_response [sample_prediction])
             1700000000000)
          View.initial))
  = [sample_prediction].
Proof.
  exact (proj1 (proj2 (proj2
    (failed_fetch_preserves_data
       (View.run
          (View.fetchPredictions (ok_response [sample_prediction])
             1700000000000)
          View.initial)
       error_response 1700086400000 eq_refl)))).
Defined.

(** * Further properties of the sources *)

(** ** formatPercentage on arbitrary numbers *)

(** X1. A number that is not negative (and below 10^21, where the
    runtime switches to exponent notation) is printed as the integer
    closest to it, the upper one at a half, followed by the percent
    sign; no scaling takes place. *)
Theorem formatPercentage_rounds_half_up (v : Q) (n : Z) :
  (0 <= v)%Q -> (v < 1000000000000000000000)%Q ->
  (inject_Z n - (1 # 2) <= v)%Q -> (v < inject_Z n + (1 # 2))%Q ->
  formatPercentage v = JS.Number_toString n ++ "%".
Proof.
  intros H0 _ Hl Hu. unfold formatPercentage, JS.toFixed0.
  assert (Hv : (0 <= v * 1)%Q) by lra.
  apply Qle_bool_iff in Hv. rewrite Hv. simpl negb. cbv iota.
  rewrite (Qfloor_between _ n); [reflexivity| |].
  - lra.
  - rewrite inject_Z_plus. unfold inject_Z at 2. lra.
Qed.

Lemma formatPercentage_rounds_half_up_witness :
  formatPercentage (85 # 2) = "43%".
Proof.
  apply (formatPercentage_rounds_half_up (85 # 2) 43);
    unfold inject_Z; lra.
Defined.

(** X2. A negative number (above -10^21) is printed as a minus sign and
    its magnitude rounded in the same way, so that a value between -1/2
    and 0 reads "-0%". *)
Theorem formatPercentage_negative (v : Q) (n : Z) :
  (v < 0)%Q -> (- (1000000000000000000000) < v)%Q ->
  (inject_Z n - (1 # 2) <= - v)%Q -> (- v < inject_Z n + (1 # 2))%Q ->
  formatPercentage v = "-" ++ JS.Number_toString n ++ "%".
Proof.
  intros H0 _ Hl Hu. unfold formatPercentage, JS.toFixed0.
  destruct (Qle_bool 0 (v * 1)) eqn:E.
  - apply Qle_bool_iff in E. exfalso. lra.
  - simpl negb. cbv iota.
    rewrite (Qfloor_between _ n); [reflexivity| |].
    + lra.
    + rewrite inject_Z_plus. unfold inject_Z at 2. lra.
Qed.

Lemma formatPercentage_negative_witness :
  formatPercentage (- (1 # 4)) = "-0%".
Proof.
  apply (formatPercentage_negative (- (1 # 4)) 0); unfold inject_Z; lra.
Defined.

(** ** calculateTimeRemaining and the line that shows it *)

Lemma calculateTimeRemaining_ended_iff
    (Date_getTime : string -> option Z) (now : Z)
    (matchTime : string) (kickoff : Z) :
  Date_getTime matchTime = Some kickoff ->
  calculateTimeRemaining Date_getTime now matchTime = "Match ended"
  <-> kickoff < now.
Proof.
  intros P. unfold calculateTimeRemaining. rewrite P. cbv zeta.
  destruct (kickoff - now <? 0) eqn:E.
  - split; [lia | reflexivity].
  - split; [|lia]. intros H. exfalso.
    destruct (0 <? (kickoff - now) / (1000 * 60 * 60)).
    + rewrite <- append_assoc, <- append_assoc in H.
      exact (minutes_suffix_not_ended _ H).
    + exact (minutes_suffix_not_ended _ H).
Qed.

(** X3. A kickoff that is now or less than a minute ahead reads "0m":
    the seconds are dropped and the match is not yet reported as
    ended. *)
Theorem calculateTimeRemaining_last_minute
    (Date_getTime : string -> option Z) (now : Z)
    (matchTime : string) (kickoff : Z) :
  Date_getTime matchTime = Some kickoff ->
  0 <= kickoff - now < 60000 ->
  calculateTimeRemaining Date_getTime now matchTime = "0m".
Proof.
  intros P H. unfold calculateTimeRemaining. rewrite P. cbv zeta.
  assert (E : (kickoff - now <? 0) = false) by lia. rewrite E.
  change (1000 * 60 * 60) with 3600000. change (1000 * 60) with 60000.
  rewrite (Z.div_small (kickoff - now) 3600000) by lia.
  rewrite (Z.mod_small (kickoff - now) 3600000) by lia.
  rewrite (Z.div_small (kickoff - now) 60000) by lia.
  reflexivity.
Qed.

Lemma calculateTimeRemaining_last_minute_witness :
  calculateTimeRemaining (fun _ => Some 1700000000000) 1700000000000
    "2023-11-14T22:13:20.000Z" = "0m".
Proof.
  apply (calculateTimeRemaining_last_minute
           (fun _ => Some 1700000000000) 1700000000000
           "2023-11-14T22:13:20.000Z" 1700000000000 eq_refl).
  lia.
Defined.

(** X4. The line of a card reads the clock twice.  With the readings in
    order, it is "Match ended" when the kickoff is before the first
    reading, the remaining time behind "Time Remaining: " when the
    kickoff is not before the second, and "Time Remaining: Match ended"
    when the kickoff falls between the two. *)
Theorem timeRemainingLine_cases
    (Date_getTime : string -> option Z) (now1 now2 : Z)
    (m : Prediction) (kickoff : Z) :
  Date_getTime (dateTime m) = Some kickoff ->
  now1 <= now2 ->
  let line := timeRemainingLine Date_getTime now1 now2 m in
  (kickoff < now1 -> line = "Match ended")
  /\ (now1 <= kickoff < now2 -> line = "Time Remaining: Match ended")
  /\ (now2 <= kickoff ->
      line = "Time Remaining: "
               ++ calculateTimeRemaining Date_getTime now2 (dateTime m)
      /\ calculateTimeRemaining Date_getTime now2 (dateTime m)
         <> "Match ended").
Proof.
  intros P Hn line. subst line. unfold timeRemainingLine.
  pose proof (calculateTimeRemaining_ended_iff
                Date_getTime now1 (dateTime m) kickoff P) as E1.
  pose proof (calculateTimeRemaining_ended_iff
                Date_getTime now2 (dateTime m) kickoff P) as E2.
  destruct (String.eqb_spec
              (calculateTimeRemaining Date_getTime now1 (dateTime m))
              "Match ended") as [Y | N].
  - apply E1 in Y. split; [|split]; intros K; try lia. reflexivity.
  - assert (NK : ~ kickoff < now1) by (intros C; apply N, E1, C).
    split; [|split]; intros K; try lia.
    + assert (K2 : kickoff < now2) by lia. apply E2 in K2. now rewrite K2.
    + split; [reflexivity|]. intros C. apply E2 in C. lia.
Qed.

Lemma timeRemainingLine_cases_witness :
  timeRemainingLine (fun _ => Some 1700000000000)
    1700000000000 1700000000001 sample_prediction
  = "Time Remaining: Match ended".
Proof.
  destruct (timeRemainingLine_cases (fun _ => Some 1700000000000)
              1700000000000 1700000000001 sample_prediction 1700000000000
              eq_refl ltac:(lia))
    as (_ & H & _).
  apply H. lia.
Defined.

(** X5. A date that does not parse is never shown as ended: whatever
    the clock reads, the line is "Time Remaining: NaNm". *)
Theorem timeRemainingLine_invalid_date
    (Date_getTime : string -> option Z) (now1 now2 : Z) (m : Prediction) :
  Date_getTime (dateTime m) = None ->
  timeRemainingLine Date_getTime now1 now2 m = "Time Remaining: NaNm".
Proof.
  intros P. unfold timeRemainingLine.
  rewrite !(calculateTimeRemaining_invalid_date _ _ _ P). reflexivity.
Qed.

Lemma timeRemainingLine_invalid_date_witness :
  timeRemainingLine (fun _ => None) 1700000000000 1700000000001
    sample_prediction
  = "Time Remaining: NaNm".
Proof.
  apply (timeRemainingLine_invalid_date (fun _ => None)
           1700000000000 1700000000001 sample_prediction eq_refl).
Defined.

(** ** determineOutcome *)

Lemma win_message_not_draw (name : string) :
  name ++ " likely to win" <> "Draw likely".
Proof.
  intros H.
  change " likely to win" with (" likely to wi" ++ "n") in H.
  change "Draw likely" with ("Draw likel" ++ "y") in H.
  rewrite <- append_assoc in H.
  apply append_last_char in H. discriminate.
Qed.

(** X6. A draw is announced exactly when the draw probability is
    strictly above both win probabilities; with any tie that involves a
    team, a team is announced. *)
Theorem determineOutcome_draw_iff (m : Prediction) :
  determineOutcome m = "Draw likely"
  <-> (probHomeWin m < probDraw m)%Q /\ (probAwayWin m < probDraw m)%Q.
Proof.
  unfold determineOutcome, JS.strict_eq.
  destruct m as [i hn an dt hp ap h d a eh ea]; simpl.
  pose proof (Math_max_upper h d a) as (Uh & Ud & Ua).
  destruct (Math_max_attained h d a) as [A | [A | A]];
    rewrite A in *; clear A;
    repeat match goal with
      | |- context [Qeq_bool ?x ?y] =>
          is_var x; is_var y; destruct (Qeq_bool x y) eqn:?; simpl
      end;
    order_facts;
    (split;
     [ intros Shown;
       try (exfalso; exact (win_message_not_draw _ Shown));
       try (exfalso; lra); split; lra
     | intros [Above1 Above2]; try reflexivity; exfalso; lra ]).
Qed.

Lemma Qle_bool_scale (k a b : Q) :
  (0 < k)%Q -> Qle_bool (k * a) (k * b) = Qle_bool a b.
Proof.
  intros K.
  destruct (Qle_bool a b) eqn:E.
  - apply Qle_bool_iff. apply Qle_bool_iff in E.
    exact (proj2 (Qmult_le_l a b k K) E).
  - destruct (Qle_bool (k * a) (k * b)) eqn:E'; [|reflexivity].
    apply Qle_bool_iff in E'.
    apply (proj1 (Qmult_le_l a b k K)) in E'.
    apply Qle_bool_iff in E'. congruence.
Qed.

Lemma Math_max2_scale (k a b : Q) :
  (0 < k)%Q -> JS.Math_max2 (k * a) (k * b) = (k * JS.Math_max2 a b)%Q.
Proof.
  intros K. unfold JS.Math_max2. rewrite (Qle_bool_scale k a b K).
  now destruct (Qle_bool a b).
Qed.

Lemma strict_eq_scale (k a b : Q) :
  (0 < k)%Q -> JS.strict_eq (k * a) (k * b) = JS.strict_eq a b.
Proof.
  intros K. unfold JS.strict_eq.
  assert (NZ : ~ (k == 0)%Q) by lra.
  destruct (Qeq_bool a b) eqn:E.
  - apply Qeq_bool_iff. apply Qeq_bool_iff in E.
    exact (proj2 (Qmult_inj_l a b k NZ) E).
  - destruct (Qeq_bool (k * a) (k * b)) eqn:E'; [|reflexivity].
    apply Qeq_bool_iff in E'.
    apply (proj1 (Qmult_inj_l a b k NZ)) in E'.
    apply Qeq_bool_iff in E'. congruence.
Qed.

(** X7. The announced outcome depends on the order of the three
    probabilities only, not on their scale: multiplying all three by a
    positive factor, as for percentages instead of fractions, leaves
    the message unchanged. *)
Theorem determineOutcome_scale_invariant (k : Q) (m : Prediction) :
  (0 < k)%Q ->
  determineOutcome (scale_probabilities k m) = determineOutcome m.
Proof.
  intros K. unfold determineOutcome, scale_probabilities, JS.Math_max.
  simpl.
  rewrite !(Math_max2_scale k) by exact K.
  rewrite !(strict_eq_scale k) by exact K.
  reflexivity.
Qed.

Lemma determineOutcome_scale_invariant_witness :
  determineOutcome (scale_probabilities 100 sample_prediction)
  = "Arsenal likely to win".
Proof.
  rewrite (determineOutcome_scale_invariant 100 sample_prediction);
    [reflexivity | lra].
Defined.

(** ** getTeamLogo *)

Lemma replace_spaces_from_no_space_id (in_run : bool) (s : string) :
  all_chars (fun c => negb (JS.is_space c)) s = true ->
  JS.replace_spaces_from in_run "-" s = s.
Proof.
  revert in_run; induction s as [|c s IH]; intros in_run; simpl;
    [reflexivity|].
  intros H. apply andb_true_iff in H as [Hc Hs].
  destruct (JS.is_space c); [discriminate|].
  now rewrite IH.
Qed.

Lemma toLowerCase_lower_id (s : string) :
  all_chars is_lower s = true -> JS.toLowerCase s = s.
Proof.
  induction s as [|c s IH]; simpl; [reflexivity|].
  intros H. apply andb_true_iff in H as [Hc Hs].
  apply Ascii.eqb_eq in Hc. now rewrite Hc, IH.
Qed.

Lemma all_chars_and (p q : ascii -> bool) (s : string) :
  all_chars (fun c => p c && q c) s = true ->
  all_chars p s = true /\ all_chars q s = true.
Proof.
  induction s as [|c s IH]; simpl; [auto|].
  intros H. apply andb_true_iff in H as [Hc Hs].
  apply andb_true_iff in Hc as [Hp Hq].
  destruct (IH Hs) as [IHp IHq]. now rewrite Hp, Hq, IHp, IHq.
Qed.

(** X9. A name without white space and without capitals goes into the
    address as it is: no other character is escaped, replaced or
    removed. *)
Theorem getTeamLogo_verbatim (s : string) :
  all_chars (fun c => negb (JS.is_space c) && is_lower c) s = true ->
  getTeamLogo s = "https://img.icons8.com/color/96/" ++ s ++ ".png".
Proof.
  intros H. apply all_chars_and in H as [Hs Hl].
  unfold getTeamLogo, JS.replace_spaces.
  now rewrite (replace_spaces_from_no_space_id false s Hs),
    (toLowerCase_lower_id s Hl).
Qed.

Lemma getTeamLogo_verbatim_witness :
  getTeamLogo "../a?b=1&c#d"
  = "https://img.icons8.com/color/96/../a?b=1&c#d.png".
Proof.
  apply (getTeamLogo_verbatim "../a?b=1&c#d"). reflexivity.
Defined.

(** ** The route handler, case by case *)

(** The response of the handler as a function of the upstream's answer
    to its request. *)
Lemma GET_response (w : Route.World) :
  fst (Route.GET w)
  = match Route.upstream w (List.length (Route.sent w)) with
    | Route.Rejected => Route.mkNextResponse 500 Route.error_payload
    | Route.Fulfilled r =>
        if Route.ok r then
          match Route.json r with
          | None | Some Route.JNull =>
              Route.mkNextResponse 500 Route.error_payload
          | Some data => Route.mkNextResponse 200 data
          end
        else Route.mkNextResponse 500 Route.error_payload
    end.
Proof.
  unfold Route.GET, Route.try_catch, Route.bind, Route.fetch.
  destruct (Route.upstream w (List.length (Route.sent w))) as [|r];
    [reflexivity|].
  destruct (Route.ok r); simpl; [|reflexivity].
  unfold Route.response_json.
  destruct (Route.json r) as [[]|]; reflexivity.
Qed.

(** X11. Whatever the upstream answers, one call of the handler sends
    exactly one request, to the "matches/today" address of the API with
    the token in the Authorization header, and adds it after the
    requests sent before. *)
Theorem GET_single_authorized_request (w : Route.World) :
  exists req,
    Route.sent (snd (Route.GET w)) = (Route.sent w ++ [req])%list
    /\ Route.url req = "https://www.predicd.com/api/v1/matches/today/"
    /\ Route.headers req
       = [("Authorization",
           "Token 0a462628f68e4dc40cf622dfc995b7993b8c2e0f")]
    /\ Route.upstream (snd (Route.GET w)) = Route.upstream w.
Proof.
  exists Route.the_request. rewrite GET_sends_one_request.
  repeat split.
Qed.




(** ** The prediction view over whole fetches *)

Lemma attempt_updates (res : View.Settled) (clock : Z)
    (us : list View.Update) :
  View.attempt res clock = inr us ->
  exists data,
    us = [View.SetPredictions data; View.SetLastUpdated (Some clock)].
Proof.
  unfold View.attempt. destruct res as [|r]; [discriminate|].
  destruct (negb (View.ok r)); [discriminate|].
  destruct (View.body r) as [| | e | data]; try discriminate.
  intros H. inversion H. now exists data.
Qed.

Lemma fetchPredictions_turns (res : View.Settled) (clock : Z) :
  View.fetchPredictions res clock
  = (turn_updates Starts ++ turn_updates (Settles res clock))%list.
Proof. reflexivity. Qed.

Lemma run_turns_alone (s : View.State) (res : View.Settled) (clock : Z) :
  run_turns [Starts; Settles res clock] s
  = View.run (View.fetchPredictions res clock) s.
Proof.
  rewrite fetchPredictions_turns. unfold run_turns, View.run.
  rewrite fold_left_app. reflexivity.
Qed.

Lemma fetch_loading_trace (s : View.State) (res : View.Settled)
    (clock : Z) :
  let updates := View.fetchPredictions res clock in
  exists during,
    View.states updates s = (during ++ [View.run updates s])%list
    /\ during <> []
    /\ Forall (fun st => View.PredictionList st = View.Loading) during
    /\ View.isLoading (View.run updates s) = false
    /\ View.PredictionList (View.run updates s) <> View.Loading.
Proof.
  cbv zeta. unfold View.fetchPredictions.
  destruct (View.attempt res clock) as [err | us] eqn:A.
  - eexists [_; _]. simpl. repeat split; try discriminate.
    repeat constructor.
  - destruct (attempt_updates res clock us A) as (data & ->).
    eexists [_; _; _]. simpl. repeat split; try discriminate.
    + repeat constructor.
    + unfold View.PredictionList. simpl.
      destruct (View.error s) as [e|]; [destruct (View.truthy e)|];
        destruct data; discriminate.
Qed.

(** X14. Take an invocation that runs alone: its two turns follow each
    other, and no other invocation starts or settles between them.
    From whatever state it starts, and whether its request is rejected,
    answered without success, or answered with a body that is malformed,
    null, an error payload or an array of predictions, the component
    shows the loading view after every setter call but the last, and
    after the last one it does not. *)
Theorem fetch_shows_loading_until_settled (s : View.State)
    (res : View.Settled) (clock : Z) :
  let updates :=
    (turn_updates Starts ++ turn_updates (Settles res clock))%list in
  let settled := run_turns [Starts; Settles res clock] s in
  exists during,
    View.states updates s = (during ++ [settled])%list
    /\ during <> []
    /\ Forall (fun st => View.PredictionList st = View.Loading) during
    /\ View.isLoading settled = false
    /\ View.PredictionList settled <> View.Loading.
Proof.
  cbv zeta. rewrite run_turns_alone, <- fetchPredictions_turns.
  apply fetch_loading_trace.
Qed.

(** X19. The loading flag follows the last turn only, whatever ran
    before: it is up after a turn that starts an invocation and down
    after a turn in which one settles.  So when two invocations overlap,
    the first to settle takes the loading view down while the other is
    still in flight. *)
Theorem loading_flag_follows_last_turn (ts : list Turn) (t : Turn)
    (s : View.State) :
  View.isLoading (run_turns (ts ++ [t]) s)
  = match t with
    | Starts => true
    | Settles _ _ => false
    end.
Proof.
  unfold run_turns. rewrite fold_left_app. simpl.
  destruct t as [|res clock]; [reflexivity|].
  unfold turn_updates, fetch_after_await, View.run.
  rewrite fold_left_app. reflexivity.
Qed.

(** X20. Two invocations start before either settles, in a component
    that has recorded no error, and both succeed.  When the first
    response is in, its list is on screen under its date although the
    other invocation is still in flight; when the second is in, the list
    and the date are those of the second.  What is kept is what settled
    last, whichever invocation was started last. *)
Theorem overlapping_fetches_last_settled_wins (s : View.State)
    (r1 r2 : View.Response) (l1 l2 : list Prediction) (t1 t2 : Z) :
  View.error s = None ->
  View.ok r1 = true -> View.body r1 = View.Items l1 ->
  View.ok r2 = true -> View.body r2 = View.Items l2 ->
  let both_started := [Starts; Starts] in
  let s1 :=
    run_turns (both_started ++ [Settles (View.Fulfilled r1) t1]) s in
  let s2 :=
    run_turns
      (both_started
         ++ [Settles (View.Fulfilled r1) t1; Settles (View.Fulfilled r2) t2])
      s in
  View.PredictionList s1
  = match l1 with
    | [] => View.NoPredictions
    | _ => View.Cards (Some t1) l1
    end
  /\ View.predictions s2 = l2
  /\ View.lastUpdated s2 = Some t2
  /\ View.PredictionList s2
     = match l2 with
       | [] => View.NoPredictions
       | _ => View.Cards (Some t2) l2
       end.
Proof.
  intros E O1 B1 O2 B2. cbv zeta.
  unfold run_turns, turn_updates, fetch_before_await, fetch_after_await,
    View.attempt.
  simpl. rewrite O1, B1, O2, B2. simpl.
  unfold View.PredictionList. simpl. rewrite E.
  repeat split; [destruct l1 | destruct l2]; reflexivity.
Qed.

Lemma overlapping_fetches_last_settled_wins_witness :
  View.PredictionList
    (run_turns
       [Starts; Starts; Settles (ok_response [sample_prediction]) 1700000002000]
       View.initial)
  = View.Cards (Some 1700000002000) [sample_prediction]
  /\ View.predictions
       (run_turns
          [Starts; Starts;
           Settles (ok_response [sample_prediction]) 1700000002000;
           Settles (ok_response []) 1700000003000]
          View.initial)
     = [].
Proof.
  destruct (overlapping_fetches_last_settled_wins View.initial
              (View.mkResponse true 200 (View.Items [sample_prediction]))
              (View.mkResponse true 200 (View.Items []))
              [sample_prediction] [] 1700000002000 1700000003000
              eq_refl eq_refl eq_refl eq_refl eq_refl)
    as (H1 & H2 & _).
  split; [exact H1 | exact H2].
Defined.

(** X15. Once the error view is up it stays: after any sequence of
    further fetches, successful or not, the component shows the error
    view again. *)
Theorem error_view_survives_fetches (fs : list (View.Settled * Z))
    (s : View.State) :
  View.phase (View.PredictionList s) = View.PError ->
  View.phase (View.PredictionList (run_fetches fs s)) = View.PError.
Proof.
  revert s. induction fs as [|[res clock] fs IH]; intros s H.
  - exact H.
  - unfold run_fetches. simpl. apply IH.
    now apply error_view_is_permanent.
Qed.

Lemma error_view_survives_fetches_witness :
  View.phase
    (View.PredictionList
       (run_fetches
          [(ok_response [sample_prediction], 1700000060000);
           (ok_response [], 1700086400000)]
          after_failed_mount))
  = View.PError.
Proof.
  apply (error_view_survives_fetches
           [(ok_response [sample_prediction], 1700000060000);
            (ok_response [], 1700086400000)]
           after_failed_mount).
  reflexivity.
Defined.

(** What every fetch keeps: the error cell is empty or holds the one
    message, and a list is only stored together with a date. *)
Lemma fetch_keeps_cells (s : View.State) (res : View.Settled) (clock : Z) :
  (View.error s = None \/ View.error s = Some load_failure_message) ->
  (View.lastUpdated s = None -> View.predictions s = []) ->
  let s' := View.run (View.fetchPredictions res clock) s in
  View.isLoading s' = false
  /\ (View.error s' = None \/ View.error s' = Some load_failure_message)
  /\ (View.lastUpdated s' = None -> View.predictions s' = []).
Proof.
  intros E L. cbv zeta. unfold View.fetchPredictions.
  destruct (View.attempt res clock) as [err | us] eqn:A.
  - simpl. repeat split; auto.
  - destruct (attempt_updates res clock us A) as (data & ->).
    simpl. repeat split; auto. discriminate.
Qed.

(** X16. Between two fetches the component is never loading, its error
    cell is empty or holds the one fixed message, and it holds no list
    without a last-updated date. *)
Theorem resting_invariant (s : View.State) :
  View.resting s ->
  View.isLoading s = false
  /\ (View.error s = None \/ View.error s = Some load_failure_message)
  /\ (View.lastUpdated s = None -> View.predictions s = []).
Proof.
  induction 1 as [res clock | s res clock R IH | s res clock R IH V].
  - apply fetch_keeps_cells; auto.
  - destruct IH as (_ & E & L). now apply fetch_keeps_cells.
  - destruct IH as (_ & E & L). now apply fetch_keeps_cells.
Qed.

Lemma resting_invariant_witness :
  View.isLoading after_failed_mount = false
  /\ (View.error after_failed_mount = None
      \/ View.error after_failed_mount = Some load_failure_message)
  /\ (View.lastUpdated after_failed_mount = None ->
      View.predictions after_failed_mount = []).
Proof.
  exact (resting_invariant after_failed_mount after_failed_mount_resting).
Defined.

Lemma GET_failed_response (w : Route.World) :
  Route.upstream_failed (Route.upstream w (List.length (Route.sent w)))
  = true ->
  fst (Route.GET w) = Route.mkNextResponse 500 Route.error_payload.
Proof.
  intros F. rewrite GET_response.
  destruct (Route.upstream w (List.length (Route.sent w))) as [|r];
    [reflexivity|].
  simpl in F. destruct (Route.ok r); [|reflexivity].
  destruct (Route.json r); [discriminate|reflexivity].
Qed.

(** X17. The two ends together: when the upstream exchange of the
    route fails, the component that receives the route's answer ends in
    the error view with the retry button, from any state and whatever
    it would find in the body, and keeps its list and date. *)
Theorem upstream_failure_reaches_error_view (w : Route.World)
    (b : View.Body) (s : View.State) (clock : Z) :
  Route.upstream_failed (Route.upstream w (List.length (Route.sent w)))
  = true ->
  let s' :=
    View.run
      (View.fetchPredictions (delivered (fst (Route.GET w)) b) clock) s in
  View.PredictionList s' = View.ErrorView load_failure_message
  /\ View.retry_visible (View.PredictionList s') = true
  /\ View.predictions s' = View.predictions s
  /\ View.lastUpdated s' = View.lastUpdated s.
Proof.
  intros F. cbv zeta. rewrite (GET_failed_response w F).
  repeat split.
Qed.

Lemma upstream_failure_reaches_error_view_witness :
  View.PredictionList
    (View.run
       (View.fetchPredictions
          (delivered (fst (Route.GET upstream_503_then_ok))
             (View.WithError "Failed to fetch predictions"))
          1700000000000)
       View.initial)
  = View.ErrorView load_failure_message.
Proof.
  exact (proj1
    (upstream_failure_reaches_error_view upstream_503_then_ok
       (View.WithError "Failed to fetch predictions") View.initial
       1700000000000 eq_refl)).
Defined.

(** X18. A fetch that succeeds with at least one prediction, in a
    component that has recorded no error, shows the cards of exactly the
    fetched list under the date of this fetch; what was stored before is
    dropped. *)
Theorem successful_fetch_shows_cards (s : View.State) (r : View.Response)
    (data : list Prediction) (clock : Z) :
  View.error s = None ->
  View.ok r = true -> View.body r = View.Items data -> data <> [] ->
  View.PredictionList
    (View.run (View.fetchPredictions (View.Fulfilled r) clock) s)
  = View.Cards (Some clock) data.
Proof.
  intros E O B N. rewrite (successful_attempt r data clock O B).
  unfold View.PredictionList. simpl. rewrite E.
  destruct data; [now contradiction N | reflexivity].
Qed.

Lemma successful_fetch_shows_cards_witness :
  View.PredictionList
    (View.run
       (View.fetchPredictions (ok_response [sample_prediction])
          1700000000000)
       View.initial)
  = View.Cards (Some 1700000000000) [sample_prediction].
Proof.
  apply (successful_fetch_shows_cards View.initial
           (View.mkResponse true 200 (View.Items [sample_prediction]))
           [sample_prediction] 1700000000000 eq_refl eq_refl eq_refl).
  discriminate.
Defined.
